(** * bunpersonate: the native libcurl shim ([src/native/curl_shim.c])

    The translation unit defines four C functions.  Each one is a single
    [return] of a call into libcurl's variadic [curl_easy_setopt] or
    [curl_easy_getinfo].  libcurl is an external library: it is modelled as
    the environment of the shim.  A shim function is an interaction tree
    whose events are the things a C function body can do to the outside
    world: call into libcurl, load from memory, store to memory.  The
    meaning of the libcurl events is a parameter of the development (a
    handler into a state monad over the world), so every theorem holds for
    every behaviour libcurl may have, diverging calls included. *)

From Stdlib Require Import ZArith List String Bool Lia.
From ITree Require Import ITree ITreeFacts Events.State Events.StateFacts.
From ITree Require Import Props.Leaf Props.HasPost.
Import ITreeNotations ListNotations.
Local Open Scope itree_scope.
Local Open Scope Z_scope.

Set Implicit Arguments.

(** ** C data as the shim sees it *)

(** Addresses.  [CURL *], [const void *], [long *] and [void **] are all
    plain addresses to the shim, which never looks behind any of them. *)
Definition addr := Z.
Definition NULL : addr := 0.

(** [long], and the three libcurl enumerations, all carried as integers.
    The shim does no arithmetic on any of them. *)
Definition long := Z.
Definition CURLoption := Z.
Definition CURLINFO := Z.
Definition CURLcode := Z.

(** [CURLE_OK] of [curl/curl.h]. *)
Definition CURLE_OK : CURLcode := 0.

(** The third argument of the two libcurl functions is variadic: the
    caller pushes either a [long] or a pointer, and the callee decides from
    the option how to read it. *)
Variant vararg : Type :=
| VaLong (value : long)
| VaPtr (p : addr).

(** The two kinds of value a caller can push. *)
Variant value_kind : Type := KLong | KPtr.

Definition vararg_kind (a : vararg) : value_kind :=
  match a with
  | VaLong _ => KLong
  | VaPtr _ => KPtr
  end.

(** ** Events *)

(** Calls into libcurl; each answers with a [CURLcode]. *)
Variant libcurlE : Type -> Type :=
| curl_easy_setopt (handle : addr) (option : CURLoption) (param : vararg)
  : libcurlE CURLcode
| curl_easy_getinfo (handle : addr) (info : CURLINFO) (param : vararg)
  : libcurlE CURLcode.

(** Memory accesses a C function body could perform itself. *)
Variant memE : Type -> Type :=
| Load (a : addr) : memE Z
| Store (a : addr) (v : Z) : memE unit.

Definition shimE : Type -> Type := libcurlE +' memE.

(** ** The four functions of [curl_shim.c] *)

Definition curl_easy_setopt_long_shim
    (handle : addr) (option : CURLoption) (value : long)
  : itree shimE CURLcode :=
  code <- trigger (curl_easy_setopt handle option (VaLong value)) ;;
  Ret code.

Definition curl_easy_setopt_ptr_shim
    (handle : addr) (option : CURLoption) (value : addr)
  : itree shimE CURLcode :=
  code <- trigger (curl_easy_setopt handle option (VaPtr value)) ;;
  Ret code.

Definition curl_easy_getinfo_long_shim
    (handle : addr) (info : CURLINFO) (out : addr)
  : itree shimE CURLcode :=
  code <- trigger (curl_easy_getinfo handle info (VaPtr out)) ;;
  Ret code.

Definition curl_easy_getinfo_ptr_shim
    (handle : addr) (info : CURLINFO) (out : addr)
  : itree shimE CURLcode :=
  code <- trigger (curl_easy_getinfo handle info (VaPtr out)) ;;
  Ret code.

(** ** Shapes of a function body *)

(** [forwards e t]: the whole of [t] is the one event [e], and the answer
    of [e] is the result of [t], unchanged. *)
Variant forwards {R : Type} (e : shimE R) (t : itree shimE R) : Prop :=
| forwards_intro (k : R -> itree shimE R) :
    observe t = VisF e k ->
    (forall r, observe (k r) = RetF r) ->
    forwards e t.

(** [calls n t]: [t] is a finite tree, every path of which performs exactly
    [n] libcurl calls, no memory access and no silent step. *)
Inductive calls {R : Type} : nat -> itree shimE R -> Prop :=
| calls_ret t r :
    observe t = RetF r -> calls 0 t
| calls_call t X (e : libcurlE X) (k : X -> itree shimE R) n :
    observe t = VisF (inl1 e) k ->
    (forall x, calls n (k x)) ->
    calls (S n) t.

(** ** Running a body against libcurl *)

Section Semantics.

(** libcurl's private state (its easy handles and what they store). *)
Variable L : Type.

(** The world: the memory the caller and libcurl share, and libcurl's
    private state. *)
Record World : Type := mkWorld { heap : addr -> Z; lib : L }.

(** What libcurl does on each call.  A call may change the whole world,
    and may fail to return. *)
Variable libcurl : libcurlE ~> Monads.stateT World (itree void1).

Definition store (w : World) (a : addr) (v : Z) : World :=
  mkWorld (fun a' => if Z.eqb a' a then v else heap w a') (lib w).

Definition h_mem : memE ~> Monads.stateT World (itree void1) :=
  fun _ e w =>
    match e with
    | Load a => Ret (w, heap w a)
    | Store a v => Ret (store w a v, tt)
    end.

Definition h_shim : shimE ~> Monads.stateT World (itree void1) :=
  case_ libcurl h_mem.

Definition run {R : Type} (t : itree shimE R) (w : World)
  : itree void1 (World * R) :=
  interp_state h_shim t w.

End Semantics.

Arguments mkWorld {L} heap lib.
Arguments heap {L} w a.
Arguments lib {L} w.

(** [returns libcurl t w w' r]: run from the world [w], the body [t] comes
    back with the result [r] and leaves the world [w']. *)
Definition returns {L R : Type}
    (libcurl : libcurlE ~> Monads.stateT (World L) (itree void1))
    (t : itree shimE R) (w w' : World L) (r : R) : Prop :=
  Leaf (w', r) (run libcurl t w).

(** The same for a direct call of libcurl. *)
Definition lib_returns {L R : Type}
    (libcurl : libcurlE ~> Monads.stateT (World L) (itree void1))
    (e : libcurlE R) (w w' : World L) (r : R) : Prop :=
  Leaf (w', r) (libcurl R e w).

(** [mem_free t]: [t] is a finite tree no path of which loads from or
    stores to memory. *)
Inductive mem_free {R : Type} : itree shimE R -> Prop :=
| mem_free_ret t r :
    observe t = RetF r -> mem_free t
| mem_free_tau t u :
    observe t = TauF u -> mem_free u -> mem_free t
| mem_free_call t X (e : libcurlE X) (k : X -> itree shimE R) :
    observe t = VisF (inl1 e) k ->
    (forall x, mem_free (k x)) ->
    mem_free t.

(** [invokes e t]: the first thing [t] does, on every input, is the libcurl
    call [e]: nothing is tested and nothing is read before it. *)
Definition invokes {R X : Type} (e : libcurlE X) (t : itree shimE R) : Prop :=
  exists k : X -> itree shimE R, observe t = VisF (inl1 e) k.

(** ** The symbols the translation unit exports *)

(** One constructor per function definition of [curl_shim.c], in the order
    of the file.  None is [static]: all four have external linkage. *)
Variant shim_symbol : Type :=
| sym_setopt_long_shim
| sym_setopt_ptr_shim
| sym_getinfo_long_shim
| sym_getinfo_ptr_shim.

Definition exported_symbols : list shim_symbol :=
  [sym_setopt_long_shim; sym_setopt_ptr_shim;
   sym_getinfo_long_shim; sym_getinfo_ptr_shim].

Definition symbol_name (s : shim_symbol) : string :=
  match s with
  | sym_setopt_long_shim => "curl_easy_setopt_long_shim"
  | sym_setopt_ptr_shim => "curl_easy_setopt_ptr_shim"
  | sym_getinfo_long_shim => "curl_easy_getinfo_long_shim"
  | sym_getinfo_ptr_shim => "curl_easy_getinfo_ptr_shim"
  end.

(** The C types of the third parameters. *)
Variant ctype : Type :=
| Tlong            (* long *)
| Tconst_void_ptr  (* const void * *)
| Tlong_ptr        (* long * *)
| Tvoid_ptr_ptr.   (* void ** *)

Definition third_param (s : shim_symbol) : ctype :=
  match s with
  | sym_setopt_long_shim => Tlong
  | sym_setopt_ptr_shim => Tconst_void_ptr
  | sym_getinfo_long_shim => Tlong_ptr
  | sym_getinfo_ptr_shim => Tvoid_ptr_ptr
  end.

(** How a value of each type travels through a variadic call. *)
Definition pushed_as (ty : ctype) : value_kind :=
  match ty with
  | Tlong => KLong
  | _ => KPtr
  end.

(** What a value of each type holds for the caller: an integer, or a
    pointer the caller does not look behind; for the two out-parameters,
    what the slot they point to holds. *)
Variant payload : Type := PInteger | POpaquePointer.

Definition carries (ty : ctype) : payload :=
  match ty with
  | Tlong | Tlong_ptr => PInteger
  | Tconst_void_ptr | Tvoid_ptr_ptr => POpaquePointer
  end.

(** The body behind each symbol.  The three parameters are all carried as
    integers, so the four functions share one signature here. *)
Definition body (s : shim_symbol) (handle : addr) (id : Z) (third : Z)
  : itree shimE CURLcode :=
  match s with
  | sym_setopt_long_shim => curl_easy_setopt_long_shim handle id third
  | sym_setopt_ptr_shim => curl_easy_setopt_ptr_shim handle id third
  | sym_getinfo_long_shim => curl_easy_getinfo_long_shim handle id third
  | sym_getinfo_ptr_shim => curl_easy_getinfo_ptr_shim handle id third
  end.

(** The functions of libcurl. *)
Variant libcurl_symbol : Type :=
| sym_curl_easy_setopt
| sym_curl_easy_getinfo.

Definition libcurl_symbol_eq_dec (a b : libcurl_symbol) : {a = b} + {a <> b}.
Proof. decide equality. Defined.

Definition symbol_of_call {X : Type} (e : libcurlE X) : libcurl_symbol :=
  match e with
  | curl_easy_setopt _ _ _ => sym_curl_easy_setopt
  | curl_easy_getinfo _ _ _ => sym_curl_easy_getinfo
  end.

(** The libcurl function a body calls first, read off the body itself. *)
Definition callee {R : Type} (t : itree shimE R) : list libcurl_symbol :=
  match observe t with
  | VisF (inl1 e) _ => [symbol_of_call e]
  | _ => []
  end.

(** The libcurl functions the exported symbols reach, without repeats. *)
Definition libcurl_symbols_reached : list libcurl_symbol :=
  nodup libcurl_symbol_eq_dec
        (flat_map (fun s => callee (body s NULL 0 0)) exported_symbols).

(** ** A stand-in for libcurl

    The theorems below hold for every libcurl.  To instantiate them, and to
    show what the shim does when libcurl accepts a call, this module gives
    one concrete library with the outline of the real one: a null handle
    is refused with [CURLE_BAD_FUNCTION_ARGUMENT], [curl_easy_setopt]
    stores the variadic argument as the bits it was pushed as (a C callee
    cannot tell a [long] from a pointer), and [curl_easy_getinfo] writes
    the answer through the pointer it is given. *)
Module LibcurlStub.

(** Constants of [curl/curl.h]. *)
Definition CURLE_BAD_FUNCTION_ARGUMENT : CURLcode := 43.
Definition CURLE_UNKNOWN_OPTION : CURLcode := 48.
Definition CURLOPT_TIMEOUT_MS : CURLoption := 155.
Definition CURLOPT_URL : CURLoption := 10002.
Definition CURLINFO_EFFECTIVE_URL : CURLINFO := 1048577.
Definition CURLINFO_RESPONSE_CODE : CURLINFO := 2097154.

(** [curl/curl.h] numbers the options by the type of their value:
    [CURLOPTTYPE_LONG] from 0, [CURLOPTTYPE_OBJECTPOINT] from 10000,
    [CURLOPTTYPE_FUNCTIONPOINT] from 20000, [CURLOPTTYPE_OFF_T] from
    30000, [CURLOPTTYPE_BLOB] from 40000.  Integers on one side,
    pointers on the other. *)
Definition declared_kind (o : CURLoption) : value_kind :=
  if (o <? 10000) || ((30000 <=? o) && (o <? 40000)) then KLong else KPtr.

Record state : Type := mkState {
  stored : addr -> CURLoption -> option Z;
  info_of : addr -> CURLINFO -> option Z
}.

Definition raw (a : vararg) : Z :=
  match a with
  | VaLong z => z
  | VaPtr p => p
  end.

Definition setopt (handle : addr) (o : CURLoption) (a : vararg)
    (w : World state) : World state * CURLcode :=
  if handle =? NULL then (w, CURLE_BAD_FUNCTION_ARGUMENT)
  else
    (mkWorld (heap w)
       (mkState
          (fun h' o' =>
             if (h' =? handle) && (o' =? o) then Some (raw a)
             else stored (lib w) h' o')
          (info_of (lib w))),
     CURLE_OK).

Definition getinfo (handle : addr) (i : CURLINFO) (a : vararg)
    (w : World state) : World state * CURLcode :=
  if handle =? NULL then (w, CURLE_BAD_FUNCTION_ARGUMENT)
  else if raw a =? NULL then (w, CURLE_UNKNOWN_OPTION)
  else
    match info_of (lib w) handle i with
    | None => (w, CURLE_UNKNOWN_OPTION)
    | Some v => (store w (raw a) v, CURLE_OK)
    end.

Definition libcurl : libcurlE ~> Monads.stateT (World state) (itree void1) :=
  fun _ e w =>
    match e with
    | curl_easy_setopt handle o a => Ret (setopt handle o a w)
    | curl_easy_getinfo handle i a => Ret (getinfo handle i a w)
    end.

(** A world with one easy handle at address 1, which has finished a
    transfer with response code 200 and keeps its effective URL at
    address 8192, and nothing stored yet. *)
Definition w0 : World state :=
  mkWorld (fun _ => 0)
    (mkState (fun _ _ => None)
       (fun h i =>
          if (h =? 1) && (i =? CURLINFO_RESPONSE_CODE) then Some 200
          else if (h =? 1) && (i =? CURLINFO_EFFECTIVE_URL) then Some 8192
          else None)).

(** The same world after the caller has put 7 in the slot at 4096. *)
Definition w1 : World state := store w0 4096 7.

End LibcurlStub.

(** ** The boundary as a whole *)

(** The libcurl call each exported function makes, with the arguments it
    passes: read off the four [return] statements. *)
Definition forwarded_call (s : shim_symbol) (handle : addr) (id : Z) (third : Z)
  : libcurlE CURLcode :=
  match s with
  | sym_setopt_long_shim => curl_easy_setopt handle id (VaLong third)
  | sym_setopt_ptr_shim => curl_easy_setopt handle id (VaPtr third)
  | sym_getinfo_long_shim => curl_easy_getinfo handle id (VaPtr third)
  | sym_getinfo_ptr_shim => curl_easy_getinfo handle id (VaPtr third)
  end.

(** The variadic argument of a call. *)
Definition param_of {X : Type} (e : libcurlE X) : vararg :=
  match e with
  | curl_easy_setopt _ _ param => param
  | curl_easy_getinfo _ _ param => param
  end.

(** The option-setting boundary: the caller picks the function by the kind
    of the value it holds. *)
Definition setopt_shim (handle : addr) (o : CURLoption) (a : vararg)
  : itree shimE CURLcode :=
  match a with
  | VaLong value => curl_easy_setopt_long_shim handle o value
  | VaPtr value => curl_easy_setopt_ptr_shim handle o value
  end.

(** A status other than [CURLE_OK] is an error. *)
Definition is_error (c : CURLcode) : bool := negb (c =? CURLE_OK).

(** The status a run ends with, the world forgotten. *)
Definition status_of {L : Type} (t : itree void1 (World L * CURLcode))
  : itree void1 CURLcode :=
  ITree.map snd t.

(** [rejects_kind_mismatch declared_kind outcome]: a set operation whose
    outcomes are given by [outcome] is checked at run time: whenever the
    kind of the value differs from the declared kind of the option, the
    call fails and leaves what libcurl has stored as it was.
    [declared_kind] is the table of [curl/curl.h], which is not part of
    this repository. *)
Definition rejects_kind_mismatch {L : Type}
    (declared_kind : CURLoption -> value_kind)
    (outcome : addr -> CURLoption -> vararg -> World L -> World L -> CURLcode -> Prop)
  : Prop :=
  forall handle o a w w' c,
    declared_kind o <> vararg_kind a ->
    outcome handle o a w w' c ->
    is_error c = true /\ lib w' = lib w.

(** ** Two bodies the shim is not

    For contrast with the four functions: a body that refuses a null
    handle itself, and a body that clears the out slot before it asks
    libcurl.  Neither is in the source; they show what the shapes above
    rule out. *)
Definition guarded_setopt (handle : addr) (o : CURLoption) (value : long)
  : itree shimE CURLcode :=
  if handle =? NULL then Ret 43
  else curl_easy_setopt_long_shim handle o value.

Definition clearing_getinfo (handle : addr) (info : CURLINFO) (out : addr)
  : itree shimE CURLcode :=
  trigger (Store out 0) ;;
  curl_easy_getinfo_long_shim handle info out.

(** Whether a node is a memory access. *)
Definition is_mem_access {R : Type} (n : itree' shimE R) : bool :=
  match n with
  | VisF (inr1 _) _ => true
  | _ => false
  end.

(** ** The option store of the transfer engine

    The source has no store of options: the shim hands every option to
    libcurl.  The store below is the component the specification describes
    around the shim. *)
Module OptionStore.

(** Modelled from the spec: the keys of the store, absent from the source;
    the enumeration of the data model. *)
Variant OptionKey : Type :=
| URL | METHOD | HEADERS | BODY_SOURCE | TIMEOUT_MS | CONNECT_TIMEOUT_MS
| FOLLOW_REDIRECTS | MAX_REDIRECTS | PROXY | TLS_VERIFY | AUTH_CREDENTIALS
| USER_AGENT.

Definition OptionKey_eq_dec (a b : OptionKey) : {a = b} + {a <> b}.
Proof. decide equality. Defined.

(** Modelled from the spec: the kinds of a tagged value, absent from the
    source. *)
Variant ValueKind : Type := Integer | Text | BinaryBlob | CallbackHandle.

Definition ValueKind_eq_dec (a b : ValueKind) : {a = b} + {a <> b}.
Proof. decide equality. Defined.

(** Modelled from the spec: a tagged value (Integer, Text, BinaryBlob,
    Handle-to-callback), absent from the source. *)
Variant Value : Type :=
| VInteger (n : Z)
| VText (s : string)
| VBinaryBlob (b : list Byte.byte)
| VCallback (h : Z).

(** Modelled from the spec: the kind a tagged value carries, absent from
    the source. *)
Definition kind_of (v : Value) : ValueKind :=
  match v with
  | VInteger _ => Integer
  | VText _ => Text
  | VBinaryBlob _ => BinaryBlob
  | VCallback _ => CallbackHandle
  end.

(** Modelled from the spec: the statuses of the option accessors, absent
    from the source; the option errors of the error taxonomy and the
    failure of a late mutation. *)
Variant Status : Type :=
| OK | TypeMismatch | InvalidValue | NotSet | SessionInProgress.

(** Modelled from the spec: what the specification leaves to the engine:
    the one declared kind of each key, the key-specific constraint on a
    value, the documented default of a key, and which keys are
    mandatory.  Absent from the source. *)
Record Schema : Type := mkSchema {
  declared_kind : OptionKey -> ValueKind;
  constraint : OptionKey -> Value -> bool;
  default : OptionKey -> option Value;
  mandatory : OptionKey -> bool
}.

(** Modelled from the spec: the store, absent from the source: a mapping
    from keys to tagged values, immutable once its session has started. *)
Record t : Type := mkStore {
  values : OptionKey -> option Value;
  started : bool
}.

(** Modelled from the spec: the store as created for a transfer request,
    absent from the source. *)
Definition empty : t := mkStore (fun _ => None) false.

(** Modelled from the spec: the start of the session, absent from the
    source. *)
Definition start (s : t) : t := mkStore (values s) true.

(** Modelled from the spec: [set(key, value)], absent from the source.  A
    value of the wrong kind always fails with [TypeMismatch]; a late
    mutation fails with [SessionInProgress]; a value that violates the
    constraint of the key fails with [InvalidValue]; a failed [set] leaves
    the store as it was. *)
Definition set (sch : Schema) (k : OptionKey) (v : Value) (s : t) : Status * t :=
  if ValueKind_eq_dec (kind_of v) (declared_kind sch k) then
    if started s then (SessionInProgress, s)
    else if constraint sch k v then
      (OK,
       mkStore (fun k' => if OptionKey_eq_dec k' k then Some v else values s k')
               (started s))
    else (InvalidValue, s)
  else (TypeMismatch, s).

(** Modelled from the spec: [get(key)], absent from the source: the stored
    value, or the documented default; an unset mandatory key with no
    default fails with [NotSet], any other unset key has no value. *)
Definition get (sch : Schema) (k : OptionKey) (s : t) : Status * option Value :=
  match values s k with
  | Some v => (OK, Some v)
  | None =>
      match default sch k with
      | Some d => (OK, Some d)
      | None => if mandatory sch k then (NotSet, None) else (OK, None)
      end
  end.

(** The round trip for every value of the declared kind of its key. *)
Definition round_trip_by_kind (sch : Schema) : Prop :=
  forall (s : t) (k : OptionKey) (v : Value),
    kind_of v = declared_kind sch k ->
    get sch k (snd (set sch k v s)) = (OK, Some v).

(** One schema: texts, integers, a blob and a callback; a timeout is not
    negative; only the URL is mandatory; redirects are followed at most 10
    times unless set otherwise. *)
Definition example_schema : Schema :=
  mkSchema
    (fun k =>
       match k with
       | URL | METHOD | HEADERS | PROXY | AUTH_CREDENTIALS | USER_AGENT => Text
       | BODY_SOURCE => CallbackHandle
       | _ => Integer
       end)
    (fun k v =>
       match k, v with
       | TIMEOUT_MS, VInteger n => 0 <=? n
       | CONNECT_TIMEOUT_MS, VInteger n => 0 <=? n
       | _, _ => true
       end)
    (fun k =>
       match k with
       | MAX_REDIRECTS => Some (VInteger 10)
       | _ => None
       end)
    (fun k =>
       match k with
       | URL => true
       | _ => false
       end).

End OptionStore.

(** ** Callers of the translation unit *)

(** A call site: which exported function, and its three arguments. *)
Record call_site : Type := mkCall {
  cs_symbol : shim_symbol;
  cs_handle : addr;
  cs_id : Z;
  cs_third : Z
}.

(** What a caller can do with the translation unit: call one of its four
    functions. *)
Variant entryE : Type -> Type :=
| Entry (c : call_site) : entryE CURLcode.

(** The body a call site runs. *)
Definition body_at (c : call_site) : itree shimE CURLcode :=
  body (cs_symbol c) (cs_handle c) (cs_id c) (cs_third c).

(** The libcurl call a call site ends in. *)
Definition call_at (c : call_site) : libcurlE CURLcode :=
  forwarded_call (cs_symbol c) (cs_handle c) (cs_id c) (cs_third c).

(** A caller linked against the shim: each call runs the body of the
    function called, in the world as it is then. *)
Definition h_link {L : Type}
    (libcurl : libcurlE ~> Monads.stateT (World L) (itree void1))
  : entryE ~> Monads.stateT (World L) (itree void1) :=
  fun _ e w =>
    match e with
    | Entry c => run libcurl (body_at c) w
    end.

(** The same caller with libcurl called where the shim was. *)
Definition h_direct {L : Type}
    (libcurl : libcurlE ~> Monads.stateT (World L) (itree void1))
  : entryE ~> Monads.stateT (World L) (itree void1) :=
  fun _ e w =>
    match e with
    | Entry c => libcurl CURLcode (call_at c) w
    end.

Definition run_linked {L R : Type}
    (libcurl : libcurlE ~> Monads.stateT (World L) (itree void1))
    (p : itree entryE R) (w : World L) : itree void1 (World L * R) :=
  interp_state (h_link libcurl) p w.

Definition run_direct {L R : Type}
    (libcurl : libcurlE ~> Monads.stateT (World L) (itree void1))
    (p : itree entryE R) (w : World L) : itree void1 (World L * R) :=
  interp_state (h_direct libcurl) p w.

(** Calls made one after the other, the statuses collected in order. *)
Fixpoint call_seq (cs : list call_site) : itree shimE (list CURLcode) :=
  match cs with
  | [] => Ret []
  | c :: cs' =>
      code <- body_at c ;;
      codes <- call_seq cs' ;;
      Ret (code :: codes)
  end.

(** The same calls made on libcurl itself: each starts in the world the
    one before it left. *)
Inductive lib_seq_returns {L : Type}
    (libcurl : libcurlE ~> Monads.stateT (World L) (itree void1))
  : list call_site -> World L -> World L -> list CURLcode -> Prop :=
| lib_seq_nil w :
    lib_seq_returns libcurl [] w w []
| lib_seq_cons c cs w w1 w2 code codes :
    lib_returns libcurl (call_at c) w w1 code ->
    lib_seq_returns libcurl cs w1 w2 codes ->
    lib_seq_returns libcurl (c :: cs) w w2 (code :: codes).

(** [preserved libcurl I]: no call of libcurl that returns leads out of
    the worlds that satisfy [I]. *)
Definition preserved {L : Type}
    (libcurl : libcurlE ~> Monads.stateT (World L) (itree void1))
    (I : World L -> Prop) : Prop :=
  forall (X : Type) (e : libcurlE X) (w w' : World L) (x : X),
    I w -> lib_returns libcurl e w w' x -> I w'.

(** A caller for the stand-in library: set the timeout of the handle at
    address 1 to 5000 ms, then ask for its response code at 4096. *)
Definition example_caller : itree entryE (CURLcode * CURLcode) :=
  c1 <- ITree.trigger
          (Entry (mkCall sym_setopt_long_shim 1 LibcurlStub.CURLOPT_TIMEOUT_MS 5000)) ;;
  c2 <- ITree.trigger
          (Entry (mkCall sym_getinfo_long_shim 1 LibcurlStub.CURLINFO_RESPONSE_CODE 4096)) ;;
  Ret (c1, c2).

(** The world the stand-in library leaves after these two calls. *)
Definition example_end : World LibcurlStub.state :=
  fst (LibcurlStub.getinfo 1 LibcurlStub.CURLINFO_RESPONSE_CODE (VaPtr 4096)
         (fst (LibcurlStub.setopt 1 LibcurlStub.CURLOPT_TIMEOUT_MS (VaLong 5000)
                 LibcurlStub.w0))).

(** The stand-in library never forgets the response code of the handle at
    address 1. *)
Definition keeps_response_code (w : World LibcurlStub.state) : Prop :=
  LibcurlStub.info_of (lib w) 1 LibcurlStub.CURLINFO_RESPONSE_CODE = Some 200.

(** * Part II: lemmas and theorems *)

Lemma run_forwards (L R : Type)
    (libcurl : libcurlE ~> Monads.stateT (World L) (itree void1))
    (e : libcurlE R) (t : itree shimE R) (w : World L) :
  forwards (inl1 e) t -> run libcurl t w ≈ libcurl R e w.
Proof.
  intros [k Ht Hk]. unfold run.
  rewrite (itree_eta t), Ht.
  rewrite interp_state_vis. cbn.
  rewrite <- (bind_ret_r (libcurl R e w)) at 2.
  apply eutt_eq_bind. intros [w' r]. cbn.
  rewrite tau_eutt, (itree_eta (k r)), Hk, interp_state_ret.
  reflexivity.
Qed.

(** ** General facts about the shapes *)

Lemma forwards_calls (R : Type) (e : libcurlE R) (t : itree shimE R) :
  forwards (inl1 e) t -> calls 1 t.
Proof.
  intros [k Ht Hk].
  eapply calls_call; [exact Ht |].
  intros x. eapply calls_ret. apply Hk.
Qed.

Lemma calls_mem_free (R : Type) (n : nat) (t : itree shimE R) :
  calls n t -> mem_free t.
Proof.
  induction 1 as [t r Ht | t X e k n Ht _ IH].
  - eapply mem_free_ret; exact Ht.
  - eapply mem_free_call; [exact Ht | exact IH].
Qed.

Lemma forwards_invokes (R : Type) (e : libcurlE R) (t : itree shimE R) :
  forwards (inl1 e) t -> invokes e t.
Proof.
  intros [k Ht _]. exists k. exact Ht.
Qed.

(** A body that forwards has the outcomes of the call it forwards, and no
    others. *)
Lemma returns_forwards (L R : Type)
    (libcurl : libcurlE ~> Monads.stateT (World L) (itree void1))
    (e : libcurlE R) (t : itree shimE R) (w w' : World L) (r : R) :
  forwards (inl1 e) t ->
  (returns libcurl t w w' r <-> lib_returns libcurl e w w' r).
Proof.
  intros Hf. unfold returns, lib_returns.
  rewrite (run_forwards libcurl w Hf). reflexivity.
Qed.

(** A finite body returns whenever each libcurl call returns. *)
Lemma calls_returns (L R : Type)
    (libcurl : libcurlE ~> Monads.stateT (World L) (itree void1))
    (n : nat) (t : itree shimE R) :
  calls n t ->
  (forall X (e : libcurlE X) w, exists w' x, lib_returns libcurl e w w' x) ->
  forall w, exists w' r, returns libcurl t w w' r.
Proof.
  intros Hc Htot. induction Hc as [t r Ht | t X e k n Ht _ IH]; intros w.
  - exists w, r. unfold returns, run.
    rewrite (itree_eta t), Ht, interp_state_ret. apply Leaf_Ret.
  - destruct (Htot X e w) as (w1 & x & Hx).
    destruct (IH x w1) as (w2 & r & Hr).
    exists w2, r. unfold returns, run in *.
    rewrite (itree_eta t), Ht, interp_state_vis. cbn.
    eapply Leaf_bind; [exact Hx |]. cbn.
    rewrite tau_eutt. exact Hr.
Qed.

(** ** The four bodies have the forwarding shape *)

(** Unfold a body and let [observe] run on it. *)
Ltac forwarding f :=
  unfold f; econstructor; [cbn; reflexivity | intros ?; cbn; reflexivity].

Lemma setopt_long_forwards handle option value :
  forwards (inl1 (curl_easy_setopt handle option (VaLong value)))
           (curl_easy_setopt_long_shim handle option value).
Proof. forwarding curl_easy_setopt_long_shim. Qed.

Lemma setopt_ptr_forwards handle option value :
  forwards (inl1 (curl_easy_setopt handle option (VaPtr value)))
           (curl_easy_setopt_ptr_shim handle option value).
Proof. forwarding curl_easy_setopt_ptr_shim. Qed.

Lemma getinfo_long_forwards handle info out :
  forwards (inl1 (curl_easy_getinfo handle info (VaPtr out)))
           (curl_easy_getinfo_long_shim handle info out).
Proof. forwarding curl_easy_getinfo_long_shim. Qed.

Lemma getinfo_ptr_forwards handle info out :
  forwards (inl1 (curl_easy_getinfo handle info (VaPtr out)))
           (curl_easy_getinfo_ptr_shim handle info out).
Proof. forwarding curl_easy_getinfo_ptr_shim. Qed.


Lemma body_forwards (s : shim_symbol) (handle : addr) (id third : Z) :
  forwards (inl1 (forwarded_call s handle id third)) (body s handle id third).
Proof.
  destruct s; cbn [body forwarded_call].
  - apply setopt_long_forwards.
  - apply setopt_ptr_forwards.
  - apply getinfo_long_forwards.
  - apply getinfo_ptr_forwards.
Qed.

(** The third parameter is pushed as its C type says, and unchanged. *)
Lemma forwarded_call_param (s : shim_symbol) (handle : addr) (id third : Z) :
  vararg_kind (param_of (forwarded_call s handle id third)) = pushed_as (third_param s)
  /\ LibcurlStub.raw (param_of (forwarded_call s handle id third)) = third.
Proof.
  destruct s; split; reflexivity.
Qed.

Lemma setopt_shim_forwards (handle : addr) (o : CURLoption) (a : vararg) :
  forwards (inl1 (curl_easy_setopt handle o a)) (setopt_shim handle o a).
Proof.
  destruct a; cbn [setopt_shim].
  - apply setopt_long_forwards.
  - apply setopt_ptr_forwards.
Qed.

(** A run has no events left, so it has at most one outcome. *)
Lemma Leaf_void1_unique (A : Type) (t : itree void1 A) (a b : A) :
  Leaf a t -> Leaf b t -> a = b.
Proof.
  intros Ha. revert b.
  induction Ha as [t Ht | t u Ht _ IH | X e t k x Ht _ _]; intros b Hb.
  - rewrite (itree_eta t), Ht in Hb. symmetry. apply Leaf_Ret_inv in Hb. exact Hb.
  - rewrite (itree_eta t), Ht in Hb. apply Leaf_Tau_inv in Hb. apply IH, Hb.
  - destruct e.
Qed.

Lemma status_of_forwards (L : Type)
    (libcurl : libcurlE ~> Monads.stateT (World L) (itree void1))
    (e : libcurlE CURLcode) (t : itree shimE CURLcode) (w : World L) :
  forwards (inl1 e) t ->
  status_of (run libcurl t w) ≈ status_of (libcurl CURLcode e w).
Proof.
  intros Hf. unfold status_of.
  rewrite (run_forwards libcurl w Hf). reflexivity.
Qed.

(** ** The shapes tell bodies apart *)

Lemma guarded_setopt_does_not_invoke (o : CURLoption) (value : long) :
  ~ invokes (curl_easy_setopt NULL o (VaLong value)) (guarded_setopt NULL o value).
Proof.
  intros [k Hk]. cbn in Hk. discriminate Hk.
Qed.

Lemma mem_free_first_node (R : Type) (t : itree shimE R) :
  mem_free t -> is_mem_access (observe t) = false.
Proof.
  intros [u r Ht | u v Ht _ | u X e k Ht _];
    unfold observe in *; rewrite Ht; reflexivity.
Qed.

Lemma clearing_getinfo_not_mem_free (handle : addr) (info : CURLINFO) (out : addr) :
  ~ mem_free (clearing_getinfo handle info out).
Proof.
  intros H. apply mem_free_first_node in H. cbn in H. discriminate H.
Qed.

(** ** Status pass-through *)

(** C1.  Whatever libcurl does, and from whatever world, each of the four
    entry points computes the status that the call it wraps computes on
    the same handle, identifier and value: the same code when the call
    returns, and no code when it does not.  Nothing is translated. *)
Theorem shim_status_passthrough (L : Type)
    (libcurl : libcurlE ~> Monads.stateT (World L) (itree void1))
    (w : World L) (handle : addr) (id : Z) (value : long) (p out : addr) :
  status_of (run libcurl (curl_easy_setopt_long_shim handle id value) w)
    ≈ status_of (libcurl CURLcode (curl_easy_setopt handle id (VaLong value)) w)
  /\ status_of (run libcurl (curl_easy_setopt_ptr_shim handle id p) w)
    ≈ status_of (libcurl CURLcode (curl_easy_setopt handle id (VaPtr p)) w)
  /\ status_of (run libcurl (curl_easy_getinfo_long_shim handle id out) w)
    ≈ status_of (libcurl CURLcode (curl_easy_getinfo handle id (VaPtr out)) w)
  /\ status_of (run libcurl (curl_easy_getinfo_ptr_shim handle id out) w)
    ≈ status_of (libcurl CURLcode (curl_easy_getinfo handle id (VaPtr out)) w).
Proof.
  repeat split; apply status_of_forwards.
  - apply setopt_long_forwards.
  - apply setopt_ptr_forwards.
  - apply getinfo_long_forwards.
  - apply getinfo_ptr_forwards.
Qed.

(** ** The entry points *)

(** C3, as stated, fails: the translation unit exports four functions, and
    they reach two functions of libcurl; neither count is three. *)
Lemma three_entry_points_counterexample :
  List.length exported_symbols <> 3%nat /\ List.length libcurl_symbols_reached <> 3%nat.
Proof.
  split; vm_compute; discriminate.
Qed.

(** C3, amended.  The source exposes four entry points over two functions
    of libcurl: [curl_easy_setopt] for an integer-valued and for a
    pointer-valued option, [curl_easy_getinfo] for an integer and for a
    pointer-valued query result.  The four names are distinct, and each
    entry point starts with the call of its libcurl function. *)
Theorem shim_exports_four_over_two :
  List.length exported_symbols = 4%nat
  /\ NoDup (List.map symbol_name exported_symbols)
  /\ (forall s : shim_symbol, In s exported_symbols)
  /\ libcurl_symbols_reached = [sym_curl_easy_setopt; sym_curl_easy_getinfo]
  /\ List.map (fun s => (symbol_of_call (forwarded_call s NULL 0 0), carries (third_param s)))
         exported_symbols
     = [(sym_curl_easy_setopt, PInteger); (sym_curl_easy_setopt, POpaquePointer);
        (sym_curl_easy_getinfo, PInteger); (sym_curl_easy_getinfo, POpaquePointer)]
  /\ (forall s handle id third,
        invokes (forwarded_call s handle id third) (body s handle id third)).
Proof.
  split; [reflexivity |].
  split.
  { cbn. repeat constructor; cbn; intuition discriminate. }
  split; [intros []; cbn; tauto |].
  split; [vm_compute; reflexivity |].
  split; [reflexivity |].
  intros s handle id third. apply forwards_invokes, body_forwards.
Qed.

(** ** What a body does besides the call *)

(** C4.  Each function is the single call of its libcurl function on its
    own arguments, with the answer handed back as it is; so, whatever
    libcurl does, the function ends in a world and with a status exactly
    when the call ends in that world with that status.  Nothing is read or
    written by the function itself, before or after. *)
Theorem shim_only_effect_is_call (L : Type)
    (libcurl : libcurlE ~> Monads.stateT (World L) (itree void1))
    (s : shim_symbol) (handle : addr) (id third : Z) (w w' : World L) (c : CURLcode) :
  forwards (inl1 (forwarded_call s handle id third)) (body s handle id third)
  /\ (returns libcurl (body s handle id third) w w' c
      <-> lib_returns libcurl (forwarded_call s handle id third) w w' c).
Proof.
  split; [apply body_forwards |].
  apply returns_forwards, body_forwards.
Qed.

(** ** No validation *)

(** C8.  For every handle, identifier and third argument, null ones
    included, the first and only thing a function does is the libcurl
    call, on the arguments as they came; no path through it loads from or
    stores to memory, so neither the handle nor the value nor the out
    pointer is dereferenced by the shim; and its run is the run of the
    call, so whatever is checked is checked by libcurl. *)
Theorem shim_never_validates (L : Type)
    (libcurl : libcurlE ~> Monads.stateT (World L) (itree void1))
    (s : shim_symbol) (handle : addr) (id third : Z) (w : World L) :
  invokes (forwarded_call s handle id third) (body s handle id third)
  /\ invokes (forwarded_call s NULL id NULL) (body s NULL id NULL)
  /\ mem_free (body s handle id third)
  /\ run libcurl (body s handle id third) w
       ≈ libcurl CURLcode (forwarded_call s handle id third) w.
Proof.
  split; [apply forwards_invokes, body_forwards |].
  split; [apply forwards_invokes, body_forwards |].
  split.
  - eapply calls_mem_free, forwards_calls, body_forwards.
  - apply run_forwards, body_forwards.
Qed.

(** ** The stand-in library returns what its two functions compute *)

Lemma stub_setopt_returns (handle : addr) (o : CURLoption) (a : vararg)
    (w : World LibcurlStub.state) :
  lib_returns LibcurlStub.libcurl (curl_easy_setopt handle o a) w
    (fst (LibcurlStub.setopt handle o a w)) (snd (LibcurlStub.setopt handle o a w)).
Proof.
  unfold lib_returns. cbn. rewrite <- surjective_pairing. apply Leaf_Ret.
Qed.

Lemma stub_getinfo_returns (handle : addr) (i : CURLINFO) (a : vararg)
    (w : World LibcurlStub.state) :
  lib_returns LibcurlStub.libcurl (curl_easy_getinfo handle i a) w
    (fst (LibcurlStub.getinfo handle i a w)) (snd (LibcurlStub.getinfo handle i a w)).
Proof.
  unfold lib_returns. cbn. rewrite <- surjective_pairing. apply Leaf_Ret.
Qed.

Lemma stub_getinfo_returns_inv (handle : addr) (i : CURLINFO) (a : vararg)
    (w w' : World LibcurlStub.state) (c : CURLcode) :
  lib_returns LibcurlStub.libcurl (curl_easy_getinfo handle i a) w w' c ->
  (w', c) = LibcurlStub.getinfo handle i a w.
Proof.
  unfold lib_returns. cbn. intros H. apply Leaf_Ret_inv in H. exact H.
Qed.

(** ** Kinds at the option-setting boundary *)

(** C2, as stated, fails.  The timeout option is declared integer-valued;
    pushed a pointer through [curl_easy_setopt_ptr_shim], the call is
    forwarded like any other, and with a libcurl that accepts it the shim
    answers [CURLE_OK] and the stored options have changed. *)
Lemma setopt_kind_check_counterexample :
  (exists w',
     returns LibcurlStub.libcurl
       (curl_easy_setopt_ptr_shim 1 LibcurlStub.CURLOPT_TIMEOUT_MS 4096)
       LibcurlStub.w0 w' CURLE_OK
     /\ LibcurlStub.declared_kind LibcurlStub.CURLOPT_TIMEOUT_MS = KLong
     /\ LibcurlStub.stored (lib LibcurlStub.w0) 1 LibcurlStub.CURLOPT_TIMEOUT_MS = None
     /\ LibcurlStub.stored (lib w') 1 LibcurlStub.CURLOPT_TIMEOUT_MS = Some 4096)
  /\ ~ rejects_kind_mismatch LibcurlStub.declared_kind
        (fun handle o a => returns LibcurlStub.libcurl (setopt_shim handle o a)).
Proof.
  assert (Hr : returns LibcurlStub.libcurl
                 (setopt_shim 1 LibcurlStub.CURLOPT_TIMEOUT_MS (VaPtr 4096))
                 LibcurlStub.w0
                 (fst (LibcurlStub.setopt 1 LibcurlStub.CURLOPT_TIMEOUT_MS
                         (VaPtr 4096) LibcurlStub.w0))
                 CURLE_OK).
  { apply (returns_forwards _ _ _ _ (setopt_shim_forwards _ _ _)).
    apply (stub_setopt_returns 1 LibcurlStub.CURLOPT_TIMEOUT_MS (VaPtr 4096)). }
  split.
  - eexists. split; [exact Hr |]. repeat split.
  - intros H.
    assert (Hk : LibcurlStub.declared_kind LibcurlStub.CURLOPT_TIMEOUT_MS
                 <> vararg_kind (VaPtr 4096)).
    { vm_compute. discriminate. }
    destruct (H _ _ _ _ _ _ Hk Hr) as [Herr _].
    discriminate Herr.
Qed.

(** C2, amended.  The shim checks neither the option nor the kind of the
    value: for every handle, option and value, of the declared kind or
    not, a set operation through the shim ends in a world and with a
    status exactly when [curl_easy_setopt] itself does on these arguments.
    So a call of the wrong kind fails, and leaves the stored options
    alone, through the shim exactly when libcurl makes it so. *)
Theorem setopt_kind_check_is_libcurls (L : Type)
    (libcurl : libcurlE ~> Monads.stateT (World L) (itree void1))
    (declared_kind : CURLoption -> value_kind) :
  (forall handle o a w w' c,
     returns libcurl (setopt_shim handle o a) w w' c
     <-> lib_returns libcurl (curl_easy_setopt handle o a) w w' c)
  /\ (rejects_kind_mismatch declared_kind
        (fun handle o a => returns libcurl (setopt_shim handle o a))
      <-> rejects_kind_mismatch declared_kind
            (fun handle o a => lib_returns libcurl (curl_easy_setopt handle o a))).
Proof.
  assert (Heq : forall handle o a w w' c,
             returns libcurl (setopt_shim handle o a) w w' c
             <-> lib_returns libcurl (curl_easy_setopt handle o a) w w' c).
  { intros. apply returns_forwards, setopt_shim_forwards. }
  split; [exact Heq |].
  unfold rejects_kind_mismatch.
  split; intros H handle o a w w' c Hk Hr; apply (H handle o a w w' c Hk);
    apply Heq; exact Hr.
Qed.

(** ** Errors *)

(** C5.  When the libcurl call behind an entry point comes back with a
    status, the entry point comes back with that status, in the world the
    call left, and it has no other outcome: the status is the return value,
    zero for success and anything else for an error, and the function
    itself writes nothing anywhere. *)
Theorem accessor_error_only_in_status (L : Type)
    (libcurl : libcurlE ~> Monads.stateT (World L) (itree void1))
    (s : shim_symbol) (handle : addr) (id third : Z) (w w' : World L) (c : CURLcode) :
  lib_returns libcurl (forwarded_call s handle id third) w w' c ->
  returns libcurl (body s handle id third) w w' c
  /\ (forall w2 c2,
        returns libcurl (body s handle id third) w w2 c2 -> w2 = w' /\ c2 = c)
  /\ (is_error c = true <-> c <> 0)
  /\ mem_free (body s handle id third).
Proof.
  intros Hlib.
  assert (Hr : returns libcurl (body s handle id third) w w' c).
  { apply (returns_forwards _ _ _ _ (body_forwards s handle id third)). exact Hlib. }
  split; [exact Hr |].
  split.
  { intros w2 c2 H2.
    pose proof (Leaf_void1_unique H2 Hr) as E. inversion E. split; reflexivity. }
  split.
  { unfold is_error, CURLE_OK. rewrite negb_true_iff, Z.eqb_neq. reflexivity. }
  eapply calls_mem_free, forwards_calls, body_forwards.
Qed.

(** At a null handle the stand-in library answers
    [CURLE_BAD_FUNCTION_ARGUMENT]; that code is what the caller of
    [curl_easy_getinfo_long_shim] gets, and the world is untouched. *)
Lemma accessor_error_only_in_status_witness :
  returns LibcurlStub.libcurl
    (body sym_getinfo_long_shim NULL LibcurlStub.CURLINFO_RESPONSE_CODE 4096)
    LibcurlStub.w0 LibcurlStub.w0 LibcurlStub.CURLE_BAD_FUNCTION_ARGUMENT
  /\ is_error LibcurlStub.CURLE_BAD_FUNCTION_ARGUMENT = true.
Proof.
  pose proof (@accessor_error_only_in_status _ LibcurlStub.libcurl
                sym_getinfo_long_shim NULL LibcurlStub.CURLINFO_RESPONSE_CODE 4096
                LibcurlStub.w0 LibcurlStub.w0 LibcurlStub.CURLE_BAD_FUNCTION_ARGUMENT
                (stub_getinfo_returns NULL LibcurlStub.CURLINFO_RESPONSE_CODE
                   (VaPtr 4096) LibcurlStub.w0))
    as (Hr & _ & _ & _).
  split; [exact Hr | reflexivity].
Defined.

(** ** Where the results travel *)

(** C6.  [curl_easy_getinfo] is handed the out pointer of the entry point
    as its third argument; when it comes back with a status [c], leaving a
    world [w'], each of the two getinfo entry points comes back with [c] as
    its return value and leaves [w']: the slot behind [out] holds what the
    call put there ([long] behind the [long *], an opaque pointer behind
    the [void **]), and the return value is the status alone.  The two
    setopt entry points hand their third parameter, a [long] or an opaque
    pointer, to [curl_easy_setopt] as the value, and return its status. *)
Theorem getinfo_result_through_out (L : Type)
    (libcurl : libcurlE ~> Monads.stateT (World L) (itree void1))
    (handle : addr) (info : CURLINFO) (out : addr) (w w' : World L)
    (c : CURLcode) (r : Z) :
  lib_returns libcurl (curl_easy_getinfo handle info (VaPtr out)) w w' c ->
  heap w' out = r ->
  (exists w2, returns libcurl (curl_easy_getinfo_long_shim handle info out) w w2 c
              /\ heap w2 out = r)
  /\ (exists w2, returns libcurl (curl_easy_getinfo_ptr_shim handle info out) w w2 c
                 /\ heap w2 out = r)
  /\ List.map (fun s => (third_param s, carries (third_param s))) exported_symbols
     = [(Tlong, PInteger); (Tconst_void_ptr, POpaquePointer);
        (Tlong_ptr, PInteger); (Tvoid_ptr_ptr, POpaquePointer)]
  /\ (forall (o : CURLoption) (value : long) (p : addr),
        forwards (inl1 (curl_easy_setopt handle o (VaLong value)))
                 (curl_easy_setopt_long_shim handle o value)
        /\ forwards (inl1 (curl_easy_setopt handle o (VaPtr p)))
                    (curl_easy_setopt_ptr_shim handle o p)).
Proof.
  intros Hlib Hr.
  split.
  { exists w'. split; [| exact Hr].
    apply (returns_forwards _ _ _ _ (getinfo_long_forwards handle info out)).
    exact Hlib. }
  split.
  { exists w'. split; [| exact Hr].
    apply (returns_forwards _ _ _ _ (getinfo_ptr_forwards handle info out)).
    exact Hlib. }
  split; [reflexivity |].
  intros o value p. split.
  - apply setopt_long_forwards.
  - apply setopt_ptr_forwards.
Qed.

(** The handle at address 1 has response code 200: asked for it through
    [curl_easy_getinfo_long_shim] with the out pointer 4096, the caller
    gets [CURLE_OK] back and finds 200 at 4096. *)
Lemma getinfo_result_through_out_witness :
  exists w2,
    returns LibcurlStub.libcurl
      (curl_easy_getinfo_long_shim 1 LibcurlStub.CURLINFO_RESPONSE_CODE 4096)
      LibcurlStub.w0 w2 CURLE_OK
    /\ heap w2 4096 = 200.
Proof.
  refine (proj1 (@getinfo_result_through_out _ LibcurlStub.libcurl
                   1 LibcurlStub.CURLINFO_RESPONSE_CODE 4096 LibcurlStub.w0
                   (fst (LibcurlStub.getinfo 1 LibcurlStub.CURLINFO_RESPONSE_CODE
                           (VaPtr 4096) LibcurlStub.w0))
                   CURLE_OK 200 _ _)).
  - apply (stub_getinfo_returns 1 LibcurlStub.CURLINFO_RESPONSE_CODE (VaPtr 4096)).
  - reflexivity.
Defined.

(** ** The out pointer is libcurl's to write *)

(** C9.  Take either getinfo entry point.  If the [curl_easy_getinfo] call
    on its arguments leaves the slot behind [out] as it found it, for
    instance because it fails before writing, then so does the entry
    point: the slot holds after it what the caller had there before.  No
    path through the entry point stores to memory. *)
Theorem getinfo_shim_preserves_out (L : Type)
    (libcurl : libcurlE ~> Monads.stateT (World L) (itree void1))
    (s : shim_symbol) (handle : addr) (info : CURLINFO) (out : addr)
    (w w' : World L) (c : CURLcode) :
  s = sym_getinfo_long_shim \/ s = sym_getinfo_ptr_shim ->
  (forall w1 c1,
     lib_returns libcurl (curl_easy_getinfo handle info (VaPtr out)) w w1 c1 ->
     heap w1 out = heap w out) ->
  returns libcurl (body s handle info out) w w' c ->
  heap w' out = heap w out /\ mem_free (body s handle info out).
Proof.
  intros Hs Hkeep Hr. split.
  - apply (Hkeep w' c).
    apply (returns_forwards _ _ _ _ (body_forwards s handle info out)) in Hr.
    destruct Hs as [-> | ->]; exact Hr.
  - eapply calls_mem_free, forwards_calls, body_forwards.
Qed.

(** With a null handle the stand-in library fails without writing, and the
    slot at 4096 still holds the caller's 7 after
    [curl_easy_getinfo_long_shim]. *)
Lemma getinfo_shim_preserves_out_witness :
  heap LibcurlStub.w1 4096 = 7
  /\ mem_free (body sym_getinfo_long_shim NULL LibcurlStub.CURLINFO_RESPONSE_CODE 4096).
Proof.
  apply (@getinfo_shim_preserves_out _ LibcurlStub.libcurl sym_getinfo_long_shim
           NULL LibcurlStub.CURLINFO_RESPONSE_CODE 4096
           LibcurlStub.w1 LibcurlStub.w1 LibcurlStub.CURLE_BAD_FUNCTION_ARGUMENT).
  - left. reflexivity.
  - intros w' c H. apply stub_getinfo_returns_inv in H.
    change (LibcurlStub.getinfo NULL LibcurlStub.CURLINFO_RESPONSE_CODE
              (VaPtr 4096) LibcurlStub.w1)
      with (LibcurlStub.w1, LibcurlStub.CURLE_BAD_FUNCTION_ARGUMENT) in H.
    inversion H. reflexivity.
  - apply (returns_forwards _ _ _ _
             (body_forwards sym_getinfo_long_shim NULL
                LibcurlStub.CURLINFO_RESPONSE_CODE 4096)).
    apply (stub_getinfo_returns NULL LibcurlStub.CURLINFO_RESPONSE_CODE (VaPtr 4096)).
Defined.

(** ** Termination *)

(** C10.  Each function is a finite tree with exactly one libcurl call on
    its one path, no silent step and nothing else; so, whenever that call
    returns from the world the function is entered in, the function
    returns. *)
Theorem shim_terminates (L : Type)
    (libcurl : libcurlE ~> Monads.stateT (World L) (itree void1))
    (s : shim_symbol) (handle : addr) (id third : Z) (w : World L) :
  (exists w' c, lib_returns libcurl (forwarded_call s handle id third) w w' c) ->
  calls 1 (body s handle id third)
  /\ exists w' c, returns libcurl (body s handle id third) w w' c.
Proof.
  intros (w' & c & Hlib). split.
  - apply forwards_calls with (e := forwarded_call s handle id third).
    apply body_forwards.
  - exists w', c.
    apply (returns_forwards _ _ _ _ (body_forwards s handle id third)).
    exact Hlib.
Qed.

(** The stand-in library returns from every call; so does
    [curl_easy_setopt_ptr_shim] on top of it. *)
Lemma shim_terminates_witness :
  calls 1 (body sym_setopt_ptr_shim 1 LibcurlStub.CURLOPT_URL 4096)
  /\ exists w' c,
       returns LibcurlStub.libcurl
         (body sym_setopt_ptr_shim 1 LibcurlStub.CURLOPT_URL 4096) LibcurlStub.w0 w' c.
Proof.
  apply (@shim_terminates _ LibcurlStub.libcurl sym_setopt_ptr_shim
           1 LibcurlStub.CURLOPT_URL 4096 LibcurlStub.w0).
  eexists. eexists.
  apply (stub_setopt_returns 1 LibcurlStub.CURLOPT_URL (VaPtr 4096) LibcurlStub.w0).
Defined.

(** ** The option store: set, then get *)

Lemma set_wrong_kind (sch : OptionStore.Schema) (k : OptionStore.OptionKey)
    (v : OptionStore.Value) (s : OptionStore.t) :
  OptionStore.kind_of v <> OptionStore.declared_kind sch k ->
  OptionStore.set sch k v s = (OptionStore.TypeMismatch, s).
Proof.
  intros Hk. unfold OptionStore.set.
  destruct (OptionStore.ValueKind_eq_dec _ _) as [E | _]; [contradiction | reflexivity].
Qed.

Lemma set_failed_keeps_store (sch : OptionStore.Schema) (k : OptionStore.OptionKey)
    (v : OptionStore.Value) (s : OptionStore.t) :
  fst (OptionStore.set sch k v s) <> OptionStore.OK ->
  snd (OptionStore.set sch k v s) = s.
Proof.
  unfold OptionStore.set.
  destruct (OptionStore.ValueKind_eq_dec _ _); [| reflexivity].
  destruct (OptionStore.started s); [reflexivity |].
  destruct (OptionStore.constraint sch k v); [| reflexivity].
  cbn. intros H. contradiction H. reflexivity.
Qed.

Lemma get_after_write (sch : OptionStore.Schema) (k : OptionStore.OptionKey)
    (v : OptionStore.Value) (s : OptionStore.t) :
  OptionStore.get sch k
    (OptionStore.mkStore
       (fun k' => if OptionStore.OptionKey_eq_dec k' k then Some v
                  else OptionStore.values s k')
       (OptionStore.started s))
  = (OptionStore.OK, Some v).
Proof.
  unfold OptionStore.get. cbn.
  destruct (OptionStore.OptionKey_eq_dec k k) as [_ | N]; [reflexivity |].
  contradiction N. reflexivity.
Qed.

Lemma set_after_start (sch : OptionStore.Schema) (k : OptionStore.OptionKey)
    (v : OptionStore.Value) (s : OptionStore.t) :
  OptionStore.kind_of v = OptionStore.declared_kind sch k ->
  OptionStore.set sch k v (OptionStore.start s)
  = (OptionStore.SessionInProgress, OptionStore.start s).
Proof.
  intros Hk. unfold OptionStore.set.
  destruct (OptionStore.ValueKind_eq_dec _ _) as [_ | N]; [reflexivity | contradiction].
Qed.

(** C7, as stated, fails.  An integer is of the declared kind of
    [TIMEOUT_MS], yet -1 violates the constraint of the key: on a store
    that holds the timeout 50, [set] fails with [InvalidValue] and [get]
    still answers 50. *)
Lemma round_trip_by_kind_counterexample :
  (let s50 := snd (OptionStore.set OptionStore.example_schema OptionStore.TIMEOUT_MS
                     (OptionStore.VInteger 50) OptionStore.empty) in
   OptionStore.kind_of (OptionStore.VInteger (-1))
   = OptionStore.declared_kind OptionStore.example_schema OptionStore.TIMEOUT_MS
   /\ fst (OptionStore.set OptionStore.example_schema OptionStore.TIMEOUT_MS
            (OptionStore.VInteger (-1)) s50) = OptionStore.InvalidValue
   /\ OptionStore.get OptionStore.example_schema OptionStore.TIMEOUT_MS
        (snd (OptionStore.set OptionStore.example_schema OptionStore.TIMEOUT_MS
                (OptionStore.VInteger (-1)) s50))
      = (OptionStore.OK, Some (OptionStore.VInteger 50)))
  /\ ~ OptionStore.round_trip_by_kind OptionStore.example_schema.
Proof.
  split; [cbv zeta; repeat split |].
  intros H.
  specialize (H (snd (OptionStore.set OptionStore.example_schema
                        OptionStore.TIMEOUT_MS (OptionStore.VInteger 50)
                        OptionStore.empty))
                OptionStore.TIMEOUT_MS (OptionStore.VInteger (-1)) eq_refl).
  vm_compute in H. discriminate H.
Qed.

(** C7, amended.  For every key and every value of the declared kind of
    that key which satisfies the constraint of the key, on a store whose
    session has not started, [set] succeeds and [get] of the key then
    returns that value. *)
Theorem option_set_get_round_trip (sch : OptionStore.Schema)
    (s : OptionStore.t) (k : OptionStore.OptionKey) (v : OptionStore.Value) :
  OptionStore.started s = false ->
  OptionStore.kind_of v = OptionStore.declared_kind sch k ->
  OptionStore.constraint sch k v = true ->
  fst (OptionStore.set sch k v s) = OptionStore.OK
  /\ OptionStore.get sch k (snd (OptionStore.set sch k v s)) = (OptionStore.OK, Some v).
Proof.
  intros Hs Hk Hc. unfold OptionStore.set.
  destruct (OptionStore.ValueKind_eq_dec _ _) as [_ | N]; [| contradiction].
  rewrite Hs, Hc. cbn [fst snd]. split; [reflexivity |].
  rewrite <- Hs. apply get_after_write.
Qed.

(** A timeout of 50 on the empty store. *)
Lemma option_set_get_round_trip_witness :
  fst (OptionStore.set OptionStore.example_schema OptionStore.TIMEOUT_MS
         (OptionStore.VInteger 50) OptionStore.empty) = OptionStore.OK
  /\ OptionStore.get OptionStore.example_schema OptionStore.TIMEOUT_MS
       (snd (OptionStore.set OptionStore.example_schema OptionStore.TIMEOUT_MS
               (OptionStore.VInteger 50) OptionStore.empty))
     = (OptionStore.OK, Some (OptionStore.VInteger 50)).
Proof.
  apply (@option_set_get_round_trip OptionStore.example_schema OptionStore.empty
           OptionStore.TIMEOUT_MS (OptionStore.VInteger 50));
    reflexivity.
Defined.



(** * Part III: callers of the shim *)

Lemma body_at_forwards (c : call_site) :
  forwards (inl1 (call_at c)) (body_at c).
Proof. apply body_forwards. Qed.

(** Handlers that agree on every event give the same runs. *)
Lemma interp_state_handlers (E : Type -> Type) (S R : Type)
    (h1 h2 : E ~> Monads.stateT S (itree void1)) :
  (forall X (e : E X) s, h1 X e s ≈ h2 X e s) ->
  forall (t : itree E R) (s : S), interp_state h1 t s ≈ interp_state h2 t s.
Proof.
  intros Hh. einit. ecofix CIH. intros t s.
  rewrite !unfold_interp_state.
  destruct (observe t); cbn.
  - eret.
  - etau.
  - ebind. econstructor; [apply Hh |].
    intros ? ? <-. etau.
Qed.

(** X1.  The shim is transparent to its callers.  Take any caller, finite or
    not, that reaches libcurl only through the four exported functions.
    Linked against the shim it behaves, from every world and for every
    libcurl, as the same caller with [curl_easy_setopt] and
    [curl_easy_getinfo] called in place of the four functions: the same
    result, the same final world, and it fails to return in the same
    cases. *)
Theorem linked_caller_is_direct_caller (L R : Type)
    (libcurl : libcurlE ~> Monads.stateT (World L) (itree void1))
    (p : itree entryE R) (w : World L) :
  run_linked libcurl p w ≈ run_direct libcurl p w.
Proof.
  apply interp_state_handlers.
  intros X [c] s. cbn. apply run_forwards, body_at_forwards.
Qed.

(** ** Invariants *)

(** A run stays within an invariant that each event keeps. *)
Lemma interp_state_invariant (E : Type -> Type) (S R : Type)
    (h : E ~> Monads.stateT S (itree void1)) (I : S -> Prop) :
  (forall X (e : E X) s, I s -> has_post (h X e s) (fun x => I (fst x))) ->
  forall (t : itree E R) (s : S),
    I s -> has_post (interp_state h t s) (fun x => I (fst x)).
Proof.
  intros Hh. unfold has_post. einit. ecofix CIH. intros t s Hs.
  rewrite !unfold_interp_state.
  destruct (observe t); cbn.
  - eret.
  - etau.
  - ebind. econstructor.
    + apply (proj1 (has_post_post_strong (h X e s) (fun x => I (fst x)))).
      apply Hh. exact Hs.
    + intros u1 u2 [<- Hu]. etau.
Qed.

Lemma h_link_invariant (L : Type)
    (libcurl : libcurlE ~> Monads.stateT (World L) (itree void1))
    (I : World L -> Prop) :
  preserved libcurl I ->
  forall X (e : entryE X) w,
    I w -> has_post (h_link libcurl e w) (fun x => I (fst x)).
Proof.
  intros Hp X [c] w Hw. apply has_post_Leaf_equiv. intros [w' code] Hleaf.
  cbn [h_link] in Hleaf.
  apply (returns_forwards libcurl w w' code (body_at_forwards c)) in Hleaf.
  exact (Hp _ _ _ _ _ Hw Hleaf).
Qed.

(** X2.  The shim breaks no invariant that libcurl keeps.  If no returning
    call of libcurl leads out of the worlds that satisfy [I], then no
    caller of the four functions, started in such a world, ends outside
    of them. *)
Theorem linked_caller_keeps_invariant (L R : Type)
    (libcurl : libcurlE ~> Monads.stateT (World L) (itree void1))
    (I : World L -> Prop) (p : itree entryE R) (w w' : World L) (r : R) :
  preserved libcurl I ->
  I w ->
  Leaf (w', r) (run_linked libcurl p w) ->
  I w'.
Proof.
  intros Hp Hw Hleaf.
  pose proof (@interp_state_invariant _ _ R (h_link libcurl) I
                (h_link_invariant Hp) p w Hw) as Hpost.
  exact (has_post_Leaf _ _ _ Hpost Hleaf).
Qed.

(** ** Sequences of calls *)

Lemma calls_observe (R : Type) (n : nat) (t u : itree shimE R) :
  observe t = observe u -> calls n t -> calls n u.
Proof.
  intros E H. revert E. destruct H as [t r Ht | t X e k m Ht Hk]; intros E.
  - eapply calls_ret. unfold observe in *. rewrite <- E. exact Ht.
  - eapply calls_call; [unfold observe in *; rewrite <- E; exact Ht | exact Hk].
Qed.

Lemma calls_bind (R S : Type) (n m : nat) (t : itree shimE R)
    (k : R -> itree shimE S) :
  calls n t -> (forall r, calls m (k r)) -> calls (n + m) (ITree.bind t k).
Proof.
  intros Ht Hk. induction Ht as [t r Ht | t X e k0 n Ht _ IH].
  - apply calls_observe with (t := k r); [| apply Hk].
    rewrite observe_bind. unfold observe in *. rewrite Ht. reflexivity.
  - cbn [Nat.add]. eapply calls_call; [| exact IH].
    rewrite observe_bind. unfold observe in *. rewrite Ht. reflexivity.
Qed.

(** X3.  Calls through the shim made one after the other reach libcurl
    once each: a sequence of [n] calls of exported functions is a finite
    tree with exactly [n] libcurl calls on its path, no silent step, and
    no load or store of its own; nothing is retried, skipped or added. *)
Theorem call_seq_calls_once_each (cs : list call_site) :
  calls (List.length cs) (call_seq cs)
  /\ mem_free (call_seq cs).
Proof.
  assert (H : calls (List.length cs) (call_seq cs)).
  { induction cs as [| c cs IH]; cbn [call_seq List.length].
    - eapply calls_ret. reflexivity.
    - change (S (List.length cs)) with (1 + List.length cs)%nat.
      apply calls_bind.
      + apply forwards_calls with (e := call_at c). apply body_at_forwards.
      + intros code.
        replace (List.length cs) with (List.length cs + 0)%nat by lia.
        apply calls_bind; [exact IH |].
        intros codes. eapply calls_ret. reflexivity. }
  split; [exact H | exact (calls_mem_free H)].
Qed.

Lemma returns_bind (L R S : Type)
    (libcurl : libcurlE ~> Monads.stateT (World L) (itree void1))
    (t : itree shimE R) (k : R -> itree shimE S) (w w2 : World L) (x : S) :
  returns libcurl (ITree.bind t k) w w2 x
  <-> exists w1 r, returns libcurl t w w1 r /\ returns libcurl (k r) w1 w2 x.
Proof.
  unfold returns, run. rewrite interp_state_bind. split.
  - intros H. apply Leaf_bind_inv in H. destruct H as ([w1 r] & H1 & H2).
    exists w1, r. split; assumption.
  - intros (w1 & r & H1 & H2). eapply Leaf_bind; [exact H1 | exact H2].
Qed.

Lemma returns_ret (L R : Type)
    (libcurl : libcurlE ~> Monads.stateT (World L) (itree void1))
    (r r' : R) (w w' : World L) :
  returns libcurl (Ret r) w w' r' <-> w' = w /\ r' = r.
Proof.
  unfold returns, run. rewrite interp_state_ret. split.
  - intros H. apply Leaf_Ret_inv in H. inversion H. split; reflexivity.
  - intros [-> ->]. apply Leaf_Ret.
Qed.

(** X4.  The shim keeps no state between calls.  A sequence of calls
    through the shim ends in a world, with a list of statuses, exactly when
    the same sequence of libcurl calls does, each started in the world the
    previous one left; the statuses come back in the order of the calls,
    failures included. *)
Theorem call_seq_is_libcurl_seq (L : Type)
    (libcurl : libcurlE ~> Monads.stateT (World L) (itree void1))
    (cs : list call_site) (w w' : World L) (codes : list CURLcode) :
  returns libcurl (call_seq cs) w w' codes
  <-> lib_seq_returns libcurl cs w w' codes.
Proof.
  revert w w' codes. induction cs as [| c cs IH]; intros w w' codes;
    cbn [call_seq].
  - rewrite returns_ret. split.
    + intros [-> ->]. constructor.
    + intros H. inversion H. split; reflexivity.
  - rewrite returns_bind. split.
    + intros (w1 & code & H1 & H2).
      apply returns_bind in H2. destruct H2 as (w2 & codes' & H2 & H3).
      apply returns_ret in H3. destruct H3 as [-> ->].
      econstructor.
      * apply (returns_forwards libcurl w w1 code (body_at_forwards c)). exact H1.
      * apply IH. exact H2.
    + intros H. inversion H as [| c' cs' w0 w1 w2 code codes' H1 H2]; subst.
      exists w1, code. split.
      * apply (returns_forwards libcurl w w1 code (body_at_forwards c)). exact H1.
      * apply returns_bind. exists w', codes'. split.
        -- apply IH. exact H2.
        -- apply returns_ret. split; reflexivity.
Qed.

Lemma stub_setopt_returns_inv (handle : addr) (o : CURLoption) (a : vararg)
    (w w' : World LibcurlStub.state) (c : CURLcode) :
  lib_returns LibcurlStub.libcurl (curl_easy_setopt handle o a) w w' c ->
  (w', c) = LibcurlStub.setopt handle o a w.
Proof.
  unfold lib_returns. cbn. intros H. apply Leaf_Ret_inv in H. exact H.
Qed.

Lemma stub_preserves_response_code :
  preserved LibcurlStub.libcurl keeps_response_code.
Proof.
  intros X e w w' x Hw H. unfold keeps_response_code in *.
  destruct e as [handle o a | handle i a].
  - apply stub_setopt_returns_inv in H. unfold LibcurlStub.setopt in H.
    destruct (handle =? NULL); inversion H; subst; cbn; exact Hw.
  - apply stub_getinfo_returns_inv in H. unfold LibcurlStub.getinfo in H.
    destruct (handle =? NULL); [inversion H; subst; exact Hw |].
    destruct (LibcurlStub.raw a =? NULL); [inversion H; subst; exact Hw |].
    destruct (LibcurlStub.info_of (lib w) handle i);
      inversion H; subst; cbn; exact Hw.
Qed.

Lemma example_caller_returns :
  Leaf (example_end, (CURLE_OK, CURLE_OK))
       (run_linked LibcurlStub.libcurl example_caller LibcurlStub.w0).
Proof.
  unfold run_linked, example_caller.
  rewrite interp_state_bind, interp_state_trigger. cbn [h_link].
  rewrite (run_forwards LibcurlStub.libcurl LibcurlStub.w0
             (body_at_forwards
                (mkCall sym_setopt_long_shim 1 LibcurlStub.CURLOPT_TIMEOUT_MS 5000))).
  cbn. rewrite bind_ret_l. cbn.
  rewrite interp_state_bind, interp_state_trigger. cbn [h_link].
  rewrite (run_forwards LibcurlStub.libcurl _
             (body_at_forwards
                (mkCall sym_getinfo_long_shim 1
                   LibcurlStub.CURLINFO_RESPONSE_CODE 4096))).
  cbn. rewrite bind_ret_l. cbn.
  rewrite interp_state_ret. apply Leaf_Ret.
Qed.

(** The stand-in library keeps the response code of its handle; after the
    example caller has run through the shim, the code is still there. *)
Lemma linked_caller_keeps_invariant_witness :
  keeps_response_code example_end.
Proof.
  apply (@linked_caller_keeps_invariant _ _ LibcurlStub.libcurl keeps_response_code
           example_caller LibcurlStub.w0 example_end (CURLE_OK, CURLE_OK)).
  - exact stub_preserves_response_code.
  - reflexivity.
  - exact example_caller_returns.
Defined.
